(** * BillyBot signup page: the submit handler of both page variants

    Shallow embedding of [handleSubmit] from

    - [src/unnamed/part_000]      (variant A: email, password, business name)
    - [src/app/signup/page.tsx]   (variant B: the same plus a mobile number)

    A JavaScript string is the list of its UTF-16 code units.  The handler is
    embedded in a small monad that threads the React state and an effect log
    and that has the three completions of a JavaScript statement list
    (normal, [return], [throw]), so that [try]/[catch]/[finally] and the early
    [return]s are written the way the source writes them. *)

From Stdlib Require Import String Ascii List NArith Arith Bool Lia.
Import ListNotations.

(** ** JavaScript strings *)

Module Js.

Definition jsstring := list N.

Definition lit (s : string) : jsstring :=
  map N_of_ascii (list_ascii_of_string s).

(** [!s] is true exactly for the empty string. *)
Definition truthy (s : jsstring) : bool :=
  match s with
  | [] => false
  | _ :: _ => true
  end.

Definition in_range (lo hi c : N) : bool := (lo <=? c)%N && (c <=? hi)%N.

(** WhiteSpace and LineTerminator of ECMAScript: what [String.prototype.trim]
    removes and what the class escape [\s] matches. *)
Definition is_space (c : N) : bool :=
  in_range 9 13 c            (* TAB LF VT FF CR *)
  || (c =? 32)%N             (* SP *)
  || (c =? 160)%N            (* NBSP *)
  || (c =? 5760)%N           (* U+1680 *)
  || in_range 8192 8202 c    (* U+2000 .. U+200A *)
  || in_range 8232 8233 c    (* LS PS *)
  || (c =? 8239)%N           (* U+202F *)
  || (c =? 8287)%N           (* U+205F *)
  || (c =? 12288)%N          (* U+3000 *)
  || (c =? 65279)%N.         (* U+FEFF *)

Fixpoint trimStart (s : jsstring) : jsstring :=
  match s with
  | [] => []
  | c :: s' => if is_space c then trimStart s' else s
  end.

Definition trimEnd (s : jsstring) : jsstring := rev (trimStart (rev s)).

Definition trim (s : jsstring) : jsstring := trimEnd (trimStart s).

(** [s.replace(/[...]/g, '')] for a one-character class: every code unit of
    the class is dropped. *)
Definition remove_all (cls : N -> bool) (s : jsstring) : jsstring :=
  filter (fun c => negb (cls c)) s.

(** [a || b] on a possibly absent string: [undefined] and the empty string
    are falsy. *)
Definition or_else (a : option jsstring) (b : jsstring) : jsstring :=
  match a with
  | Some (c :: s) => c :: s
  | _ => b
  end.

End Js.

Import Js.

(** ** Regular expressions

    The two patterns of the source have no alternation over words, no
    back-references and no look-around, so [RegExp.prototype.test] is
    membership in the language of the pattern.  The matcher runs by
    derivatives. *)

Module Regex.

Inductive regex : Type :=
| Void
| Eps
| Class (p : N -> bool)
| Seq (r1 r2 : regex)
| Alt (r1 r2 : regex).

Fixpoint nullable (r : regex) : bool :=
  match r with
  | Void => false
  | Eps => true
  | Class _ => false
  | Seq r1 r2 => nullable r1 && nullable r2
  | Alt r1 r2 => nullable r1 || nullable r2
  end.

Fixpoint deriv (c : N) (r : regex) : regex :=
  match r with
  | Void => Void
  | Eps => Void
  | Class p => if p c then Eps else Void
  | Seq r1 r2 =>
      if nullable r1
      then Alt (Seq (deriv c r1) r2) (deriv c r2)
      else Seq (deriv c r1) r2
  | Alt r1 r2 => Alt (deriv c r1) (deriv c r2)
  end.

(** A pattern anchored by [^] and [$] (no [m] flag) matches the whole input. *)
Fixpoint matches (r : regex) (s : jsstring) : bool :=
  match s with
  | [] => nullable r
  | c :: s' => matches (deriv c r) s'
  end.

(** [r?] *)
Definition opt (r : regex) : regex := Alt r Eps.

(** [r{n}] *)
Fixpoint power (r : regex) (n : nat) : regex :=
  match n with
  | O => Eps
  | S k => Seq r (power r k)
  end.

(** [r{0,n}] *)
Fixpoint upto (r : regex) (n : nat) : regex :=
  match n with
  | O => Eps
  | S k => opt (Seq r (upto r k))
  end.

(** [r{lo,hi}] *)
Definition quant (r : regex) (lo hi : nat) : regex :=
  Seq (power r lo) (upto r (hi - lo)).

(** The language of a pattern. *)
Inductive Lang : regex -> jsstring -> Prop :=
| LEps : Lang Eps []
| LClass p c : p c = true -> Lang (Class p) [c]
| LSeq r1 r2 s1 s2 : Lang r1 s1 -> Lang r2 s2 -> Lang (Seq r1 r2) (s1 ++ s2)
| LAltL r1 r2 s : Lang r1 s -> Lang (Alt r1 r2) s
| LAltR r1 r2 s : Lang r2 s -> Lang (Alt r1 r2) s.

End Regex.

Import Regex.

(** ** The patterns of [src/app/signup/page.tsx] *)

Definition chr (a : ascii) : N := N_of_ascii a.

Definition is_char (a : ascii) (c : N) : bool := (c =? chr a)%N.

(** [\d] without the [u] flag: [0-9]. *)
Definition is_digit (c : N) : bool := in_range (chr "0") (chr "9") c.

(** [[1-9]] *)
Definition is_digit19 (c : N) : bool := in_range (chr "1") (chr "9") c.

(** [[\s()-]]: the trailing [-] of the class is a literal. *)
Definition is_separator (c : N) : bool :=
  is_space c || is_char "(" c || is_char ")" c || is_char "-" c.

(** [/^\+?[1-9]\d{7,14}$/] *)
Definition phonePattern : regex :=
  Seq (opt (Class (is_char "+")))
      (Seq (Class is_digit19) (quant (Class is_digit) 7 14)).

(** [trimmedMobile.replace(/[\s()-]/g, '')] *)
Definition normalizeMobile (trimmedMobile : jsstring) : jsstring :=
  remove_all is_separator trimmedMobile.

(** [phonePattern.test(normalizedMobile)] *)
Definition phonePattern_test (s : jsstring) : bool := matches phonePattern s.

(** The spec's wording of rule 4: an optional leading [+], then one digit
    1-9, then 7 to 14 more digits.  Compared with [phonePattern_test] below. *)
Definition strip_plus (s : jsstring) : jsstring :=
  match s with
  | c :: s' => if is_char "+" c then s' else s
  | [] => []
  end.

Definition valid_mobile_shape (s : jsstring) : bool :=
  match strip_plus s with
  | d :: rest =>
      is_digit19 d && forallb is_digit rest
      && (7 <=? length rest) && (length rest <=? 14)
  | [] => false
  end.

(** ** External collaborators *)

Record User := { user_id : jsstring }.

Record Session := { access_token : jsstring }.

(** [AuthError] and the data store's error: only [message] is read. *)
Record ErrorObj := { message : option jsstring }.

Record AuthData := { data_user : option User; data_session : option Session }.

Record AuthResponse := { resp_data : AuthData; resp_error : option ErrorObj }.

(** [{ email, password, options: { phone } }]; variant A passes no options. *)
Record SignUpArgs := {
  arg_email : jsstring;
  arg_password : jsstring;
  arg_phone : option jsstring
}.

(** [{ id: string; business_name?: string }] *)
Record ClientRecord := { id : jsstring; business_name : option jsstring }.

Record UpsertResponse := { upsert_error : option ErrorObj }.

(** A thrown value; [catch {}] never inspects it. *)
Record exn := { exn_text : jsstring }.

(** How an awaited promise settles. *)
Inductive outcome (A : Type) : Type :=
| Resolves (a : A)
| Rejects (e : exn).

Arguments Resolves {A} a.
Arguments Rejects {A} e.

(** The collaborators of the page, the Supabase client and the router: what
    each remote call answers, and whether [router.push] returns or throws. *)
Record Backend := {
  auth_signUp : SignUpArgs -> outcome AuthResponse;
  from_upsert : jsstring -> ClientRecord -> outcome UpsertResponse;
  push_outcome : jsstring -> outcome unit
}.

(** ** Effects *)

Inductive event : Type :=
| PreventDefault
| SetError (msg : jsstring)
| SetIsSubmitting (b : bool)
| CallSignUp (args : SignUpArgs)
| CallUpsert (table : jsstring) (row : ClientRecord)
| RouterPush (path : jsstring).

(** The two pieces of React state the handler writes. *)
Record UiState := { ui_error : jsstring; ui_isSubmitting : bool }.

(** [log] is chronological: the oldest effect first. *)
Record machine := { ui : UiState; log : list event }.

Inductive completion (A : Type) : Type :=
| Normal (a : A)
| Return
| Throw (e : exn).

Arguments Normal {A} a.
Arguments Return {A}.
Arguments Throw {A} e.

Definition M (A : Type) : Type := Backend -> machine -> completion A * machine.

Definition ret {A : Type} (a : A) : M A := fun _ m => (Normal a, m).

Definition bind {A B : Type} (c : M A) (k : A -> M B) : M B :=
  fun be m =>
    match c be m with
    | (Normal a, m') => k a be m'
    | (Return, m') => (Return, m')
    | (Throw e, m') => (Throw e, m')
    end.

Declare Scope js_scope.
Delimit Scope js_scope with js.

Notation "x <- c ;; k" := (bind c (fun x => k))
  (at level 61, c at next level, right associativity) : js_scope.
Notation "c ;; k" := (bind c (fun _ => k))
  (at level 61, right associativity) : js_scope.

Local Open Scope js_scope.

(** [return;] *)
Definition return_ {A : Type} : M A := fun _ m => (Return, m).

Definition emit (e : event) (m : machine) : machine :=
  {| ui := ui m; log := log m ++ [e] |}.

Definition preventDefault : M unit :=
  fun _ m => (Normal tt, emit PreventDefault m).

Definition setError (msg : jsstring) : M unit :=
  fun _ m =>
    (Normal tt,
     emit (SetError msg)
       {| ui := {| ui_error := msg; ui_isSubmitting := ui_isSubmitting (ui m) |};
          log := log m |}).

Definition setIsSubmitting (b : bool) : M unit :=
  fun _ m =>
    (Normal tt,
     emit (SetIsSubmitting b)
       {| ui := {| ui_error := ui_error (ui m); ui_isSubmitting := b |};
          log := log m |}).

Definition settle {A : Type} (o : outcome A) : completion A :=
  match o with
  | Resolves a => Normal a
  | Rejects e => Throw e
  end.

(** [router.push(path)]: the call is made; it returns nothing of use, or it
    throws. *)
Definition router_push (path : jsstring) : M unit :=
  fun be m => (settle (push_outcome be path), emit (RouterPush path) m).

(** [await supabase.auth.signUp(args)] *)
Definition await_signUp (args : SignUpArgs) : M AuthResponse :=
  fun be m => (settle (auth_signUp be args), emit (CallSignUp args) m).

(** [await supabase.from(table).upsert(row)] *)
Definition await_upsert (table : jsstring) (row : ClientRecord) : M UpsertResponse :=
  fun be m => (settle (from_upsert be table row), emit (CallUpsert table row) m).

(** [if (b) { body }] *)
Definition when (b : bool) (body : M unit) : M unit :=
  if b then body else ret tt.

(** [try { body } catch { handler } finally { fin }] *)
Definition try_catch_finally {A : Type}
    (body : M A) (handler : exn -> M A) (fin : M unit) : M A :=
  fun be m =>
    let '(c1, m1) := body be m in
    let '(c2, m2) :=
      match c1 with
      | Throw e => handler e be m1
      | _ => (c1, m1)
      end in
    let '(c3, m3) := fin be m2 in
    match c3 with
    | Normal _ => (c2, m3)
    | Return => (Return, m3)
    | Throw e => (Throw e, m3)
    end.

(** What the caller of an [async] function observes. *)
Inductive settled : Type :=
| Fulfilled
| Rejected (e : exn).

Definition call_async (body : M unit) (be : Backend) (m : machine) : settled * machine :=
  match body be m with
  | (Normal _, m') => (Fulfilled, m')
  | (Return, m') => (Fulfilled, m')
  | (Throw e, m') => (Rejected e, m')
  end.

(** [x?.id] *)
Definition optional_id (u : option User) : option jsstring := option_map user_id u.

(** [Boolean(x)] and [if (x)] on an object-or-null. *)
Definition is_object {A : Type} (x : option A) : bool :=
  match x with
  | Some _ => true
  | None => false
  end.

(** ** Messages and paths *)

Definition msg_email_required : jsstring := lit "Email is required.".
Definition msg_password_short : jsstring := lit "Password must be at least 8 characters.".
Definition msg_mobile_required : jsstring := lit "Mobile is required.".
Definition msg_mobile_invalid : jsstring := lit "Please enter a valid mobile number.".
Definition msg_signup_failed : jsstring :=
  lit "Unable to create your account. Please try again.".
Definition msg_setup_failed : jsstring :=
  lit "Your account was created, but setup failed. Please try logging in.".
Definition msg_unexpected : jsstring := lit "Something went wrong. Please try again.".
Definition path_account_setup : jsstring := lit "/account/setup".
Definition path_check_email : jsstring := lit "/signup/check-email".
Definition table_clients : jsstring := lit "clients".

(** [payload = { id: userId }; if (trimmedBusinessName) payload.business_name = ...] *)
Definition build_payload (userId trimmedBusinessName : jsstring) : ClientRecord :=
  let payload := {| id := userId; business_name := None |} in
  if truthy trimmedBusinessName
  then {| id := id payload; business_name := Some trimmedBusinessName |}
  else payload.

(** ** Variant A: [src/unnamed/part_000] *)

Module VariantA.

Record Form := {
  email : jsstring;
  password : jsstring;
  businessName : jsstring
}.

Definition handleSubmit (f : Form) : M unit :=
  preventDefault ;;
  setError [] ;;
  let trimmedEmail := trim (email f) in
  let trimmedBusinessName := trim (businessName f) in
  when (negb (truthy trimmedEmail))
    (setError msg_email_required ;; return_) ;;
  when (length (password f) <? 8)
    (setError msg_password_short ;; return_) ;;
  setIsSubmitting true ;;
  try_catch_finally
    (r <- await_signUp {| arg_email := trimmedEmail;
                          arg_password := password f;
                          arg_phone := None |} ;;
     let data := resp_data r in
     let signUpError := resp_error r in
     match signUpError with
     | Some e => setError (or_else (message e) msg_signup_failed) ;; return_
     | None => ret tt
     end ;;
     let userId := optional_id (data_user data) in
     match userId with
     | Some (c :: s) =>
         let userId := c :: s in
         let payload := build_payload userId trimmedBusinessName in
         u <- await_upsert table_clients payload ;;
         let clientUpsertError := upsert_error u in
         match clientUpsertError with
         | Some e => setError (or_else (message e) msg_setup_failed) ;; return_
         | None => ret tt
         end ;;
         when (is_object (data_session data))
           (router_push path_account_setup ;; return_) ;;
         router_push path_check_email
     | _ => setError msg_signup_failed ;; return_
     end)
    (fun _ => setError msg_unexpected)
    (setIsSubmitting false).

End VariantA.

(** ** Variant B: [src/app/signup/page.tsx] *)

Module VariantB.

Record SignupParams := {
  p_email : jsstring;
  p_password : jsstring;
  p_mobile : jsstring
}.

Record SignupResult := {
  user : option User;
  sessionExists : bool;
  error : option ErrorObj
}.

Definition signUpWithEmail (params : SignupParams) : M SignupResult :=
  r <- await_signUp {| arg_email := p_email params;
                       arg_password := p_password params;
                       arg_phone := Some (p_mobile params) |} ;;
  let data := resp_data r in
  ret {| user := data_user data;
         sessionExists := is_object (data_session data);
         error := resp_error r |}.

Record Form := {
  email : jsstring;
  password : jsstring;
  mobile : jsstring;
  businessName : jsstring
}.

Definition handleSubmit (f : Form) : M unit :=
  preventDefault ;;
  setError [] ;;
  let trimmedEmail := trim (email f) in
  let trimmedMobile := trim (mobile f) in
  let trimmedBusinessName := trim (businessName f) in
  when (negb (truthy trimmedEmail))
    (setError msg_email_required ;; return_) ;;
  when (length (password f) <? 8)
    (setError msg_password_short ;; return_) ;;
  when (negb (truthy trimmedMobile))
    (setError msg_mobile_required ;; return_) ;;
  let normalizedMobile := normalizeMobile trimmedMobile in
  when (negb (phonePattern_test normalizedMobile))
    (setError msg_mobile_invalid ;; return_) ;;
  setIsSubmitting true ;;
  try_catch_finally
    (r <- signUpWithEmail {| p_email := trimmedEmail;
                             p_password := password f;
                             p_mobile := normalizedMobile |} ;;
     let signUpError := error r in
     match signUpError with
     | Some e => setError (or_else (message e) msg_signup_failed) ;; return_
     | None => ret tt
     end ;;
     let userId := optional_id (user r) in
     match userId with
     | Some (c :: s) =>
         let userId := c :: s in
         let payload := build_payload userId trimmedBusinessName in
         u <- await_upsert table_clients payload ;;
         let clientUpsertError := upsert_error u in
         match clientUpsertError with
         | Some e => setError (or_else (message e) msg_setup_failed) ;; return_
         | None => ret tt
         end ;;
         when (sessionExists r)
           (router_push path_account_setup ;; return_) ;;
         router_push path_check_email
     | _ => setError msg_signup_failed ;; return_
     end)
    (fun _ => setError msg_unexpected)
    (setIsSubmitting false).

End VariantB.

(** ** One submission of either page *)

Inductive submission : Type :=
| SubmitA (f : VariantA.Form)
| SubmitB (f : VariantB.Form).

Definition handler (sub : submission) : M unit :=
  match sub with
  | SubmitA f => VariantA.handleSubmit f
  | SubmitB f => VariantB.handleSubmit f
  end.

(** The form's [onSubmit] fires with the current React state and an empty
    effect log. *)
Definition submit (sub : submission) (be : Backend) (u : UiState) : settled * machine :=
  call_async (handler sub) be {| ui := u; log := [] |}.

Definition effects (sub : submission) (be : Backend) (u : UiState) : list event :=
  log (snd (submit sub be u)).

Definition final_ui (sub : submission) (be : Backend) (u : UiState) : UiState :=
  ui (snd (submit sub be u)).

(** Field projections shared by the two forms. *)
Definition sub_email (sub : submission) : jsstring :=
  match sub with
  | SubmitA f => VariantA.email f
  | SubmitB f => VariantB.email f
  end.

Definition sub_password (sub : submission) : jsstring :=
  match sub with
  | SubmitA f => VariantA.password f
  | SubmitB f => VariantB.password f
  end.

Definition sub_businessName (sub : submission) : jsstring :=
  match sub with
  | SubmitA f => VariantA.businessName f
  | SubmitB f => VariantB.businessName f
  end.

(** The argument of the identity-creation call, should it be reached. *)
Definition signUp_args (sub : submission) : SignUpArgs :=
  match sub with
  | SubmitA f =>
      {| arg_email := trim (VariantA.email f);
         arg_password := VariantA.password f;
         arg_phone := None |}
  | SubmitB f =>
      {| arg_email := trim (VariantB.email f);
         arg_password := VariantB.password f;
         arg_phone := Some (normalizeMobile (trim (VariantB.mobile f))) |}
  end.

(** The local rules of the submission's variant all pass. *)
Definition fields_valid (sub : submission) : bool :=
  truthy (trim (sub_email sub))
  && negb (length (sub_password sub) <? 8)
  && match sub with
     | SubmitA _ => true
     | SubmitB f =>
         truthy (trim (VariantB.mobile f))
         && phonePattern_test (normalizeMobile (trim (VariantB.mobile f)))
     end.

(** ** Observations on an effect log *)

Definition is_network (e : event) : bool :=
  match e with
  | CallSignUp _ | CallUpsert _ _ => true
  | _ => false
  end.

Definition is_upsert (e : event) : bool :=
  match e with
  | CallUpsert _ _ => true
  | _ => false
  end.

Definition is_push (e : event) : bool :=
  match e with
  | RouterPush _ => true
  | _ => false
  end.

Definition is_flag_write (e : event) : bool :=
  match e with
  | SetIsSubmitting _ => true
  | _ => false
  end.

(** A [setError] with a non-empty message: an error shown to the user.
    [setError('')] at the start of the handler only clears the field. *)
Definition is_error_shown (e : event) : bool :=
  match e with
  | SetError (_ :: _) => true
  | _ => false
  end.

Definition network_calls (l : list event) : list event := filter is_network l.
Definition upserts (l : list event) : list event := filter is_upsert l.
Definition pushes (l : list event) : list event := filter is_push l.
Definition errors_shown (l : list event) : list event := filter is_error_shown l.

(** Each effect paired with the value [isSubmitting] has when it runs;
    [flag] is the value before the first one. *)
Fixpoint observed (flag : bool) (l : list event) : list (event * bool) :=
  match l with
  | [] => []
  | e :: l' =>
      (e, flag)
        :: observed (match e with SetIsSubmitting b => b | _ => flag end) l'
  end.

(** Every remote call, navigation and error display runs while
    [isSubmitting] is true. *)
Definition busy_throughout (flag : bool) (l : list event) : bool :=
  forallb
    (fun eb =>
       implb (is_network (fst eb) || is_push (fst eb) || is_error_shown (fst eb))
             (snd eb))
    (observed flag l).

(** The flag is raised right after the reset, stays untouched while the
    sequence runs, and the last effect of the attempt lowers it. *)
Definition submitting_window (l : list event) : Prop :=
  exists mid,
    l = [PreventDefault; SetError []; SetIsSubmitting true]
          ++ mid ++ [SetIsSubmitting false]
    /\ filter is_flag_write mid = [].

(** A usable identity id: the user is present and its id is not empty. *)
Definition usable_id (r : AuthResponse) : option jsstring :=
  match optional_id (data_user (resp_data r)) with
  | Some (c :: s) => Some (c :: s)
  | _ => None
  end.

(** The row sent for identity [uid]. *)
Definition upsert_row (sub : submission) (uid : jsstring) : ClientRecord :=
  build_payload uid (trim (sub_businessName sub)).

(** Identity creation was reached and answered [r], free of a provider error
    and carrying the usable id [uid]. *)
Definition identity_created (sub : submission) (be : Backend)
    (r : AuthResponse) (uid : jsstring) : Prop :=
  fields_valid sub = true
  /\ auth_signUp be (signUp_args sub) = Resolves r
  /\ resp_error r = None
  /\ usable_id r = Some uid.

(** The provider answered identity creation with the error [e]. *)
Definition provider_error (sub : submission) (be : Backend) (e : ErrorObj) : Prop :=
  fields_valid sub = true
  /\ exists r, auth_signUp be (signUp_args sub) = Resolves r /\ resp_error r = Some e.

(** The data store answered the upsert with the error [e]. *)
Definition upsert_failed (sub : submission) (be : Backend) (e : ErrorObj) : Prop :=
  exists r uid up,
    identity_created sub be r uid
    /\ from_upsert be table_clients (upsert_row sub uid) = Resolves up
    /\ upsert_error up = Some e.

(** The destination of a run whose two remote calls succeeded. *)
Definition destination (r : AuthResponse) : jsstring :=
  if is_object (data_session (resp_data r))
  then path_account_setup else path_check_email.

(** A step of the sequence, reached by the handler, throws [x]: one of the
    two awaited calls rejects, or [router.push] throws. *)
Definition exception_raised (sub : submission) (be : Backend) (x : exn) : Prop :=
  (fields_valid sub = true /\ auth_signUp be (signUp_args sub) = Rejects x)
  \/ (exists r uid,
        identity_created sub be r uid
        /\ from_upsert be table_clients (upsert_row sub uid) = Rejects x)
  \/ (exists r uid up,
        identity_created sub be r uid
        /\ from_upsert be table_clients (upsert_row sub uid) = Resolves up
        /\ upsert_error up = None
        /\ push_outcome be (destination r) = Rejects x).

(** The spec's Field Validator (section 4.1): the rules in their order, the
    message of the first one that fails. *)
Definition first_failure (sub : submission) : option jsstring :=
  match trim (sub_email sub) with
  | [] => Some msg_email_required
  | _ :: _ =>
      if length (sub_password sub) <? 8 then Some msg_password_short
      else
        match sub with
        | SubmitA _ => None
        | SubmitB f =>
            match trim (VariantB.mobile f) with
            | [] => Some msg_mobile_required
            | _ :: _ =>
                if valid_mobile_shape (normalizeMobile (trim (VariantB.mobile f)))
                then None
                else Some msg_mobile_invalid
            end
        end
  end.

(** The attempt stops in local validation with [msg]. *)
Definition aborted_with (msg : jsstring) (sub : submission) (be : Backend)
    (u : UiState) : Prop :=
  effects sub be u = [PreventDefault; SetError []; SetError msg]
  /\ ui_error (final_ui sub be u) = msg
  /\ network_calls (effects sub be u) = [].

(** ** Sample inputs *)

Module Sample.

Definition idle : UiState := {| ui_error := []; ui_isSubmitting := false |}.

Definition formA (email : string) : VariantA.Form :=
  {| VariantA.email := lit email;
     VariantA.password := lit "correct horse";
     VariantA.businessName := lit " Acme Floors " |}.

Definition formB (mobile : string) : VariantB.Form :=
  {| VariantB.email := lit " owner@example.com ";
     VariantB.password := lit "correct horse";
     VariantB.mobile := lit mobile;
     VariantB.businessName := lit "   " |}.

Definition identity (session : bool) : AuthResponse :=
  {| resp_data :=
       {| data_user := Some {| user_id := lit "7f3a" |};
          data_session :=
            if session then Some {| access_token := lit "tok" |} else None |};
     resp_error := None |}.

Definition rejected (msg : option jsstring) : AuthResponse :=
  {| resp_data := {| data_user := None; data_session := None |};
     resp_error := Some {| message := msg |} |}.

(** Both calls succeed. *)
Definition online (session : bool) : Backend :=
  {| auth_signUp := fun _ => Resolves (identity session);
     from_upsert := fun _ _ => Resolves {| upsert_error := None |};
     push_outcome := fun _ => Resolves tt |}.

(** The provider refuses the signup. *)
Definition refusing (msg : option jsstring) : Backend :=
  {| auth_signUp := fun _ => Resolves (rejected msg);
     from_upsert := fun _ _ => Resolves {| upsert_error := None |};
     push_outcome := fun _ => Resolves tt |}.

(** The identity is created, the row is refused. *)
Definition half (msg : option jsstring) : Backend :=
  {| auth_signUp := fun _ => Resolves (identity false);
     from_upsert := fun _ _ => Resolves {| upsert_error := Some {| message := msg |} |};
     push_outcome := fun _ => Resolves tt |}.

(** The network is down. *)
Definition offline : Backend :=
  {| auth_signUp := fun _ => Rejects {| exn_text := lit "Failed to fetch" |};
     from_upsert := fun _ _ => Rejects {| exn_text := lit "Failed to fetch" |};
     push_outcome := fun _ => Resolves tt |}.

(** Both calls succeed, then the router throws. *)
Definition jammed (session : bool) : Backend :=
  {| auth_signUp := fun _ => Resolves (identity session);
     from_upsert := fun _ _ => Resolves {| upsert_error := None |};
     push_outcome := fun _ => Rejects {| exn_text := lit "Invalid URL" |} |}.

End Sample.

(** ** The rendered form

    The parts of the markup returned by [SignupPage] that depend on the
    component state: the controlled inputs, the error banner and the submit
    button. *)

Record Input := {
  input_id : jsstring;
  input_type : jsstring;
  input_required : bool;
  input_minLength : option nat;
  input_value : jsstring;
  input_disabled : bool
}.

Record View := {
  view_inputs : list Input;
  view_banner : option jsstring;
  button_disabled : bool;
  button_label : jsstring
}.

(** [{error ? <p>{error}</p> : null}] *)
Definition error_banner (error : jsstring) : option jsstring :=
  if truthy error then Some error else None.

(** [{isSubmitting ? 'Creating account...' : 'Create account'}] *)
Definition submit_label (isSubmitting : bool) : jsstring :=
  if isSubmitting then lit "Creating account..." else lit "Create account".

Module RenderA.

Definition SignupPage (f : VariantA.Form) (u : UiState) : View :=
  {| view_inputs :=
       [ {| input_id := lit "email"; input_type := lit "email";
            input_required := true; input_minLength := None;
            input_value := VariantA.email f;
            input_disabled := ui_isSubmitting u |};
         {| input_id := lit "password"; input_type := lit "password";
            input_required := true; input_minLength := Some 8;
            input_value := VariantA.password f;
            input_disabled := ui_isSubmitting u |};
         {| input_id := lit "businessName"; input_type := lit "text";
            input_required := false; input_minLength := None;
            input_value := VariantA.businessName f;
            input_disabled := ui_isSubmitting u |} ];
     view_banner := error_banner (ui_error u);
     button_disabled := ui_isSubmitting u;
     button_label := submit_label (ui_isSubmitting u) |}.

End RenderA.

Module RenderB.

Definition SignupPage (f : VariantB.Form) (u : UiState) : View :=
  {| view_inputs :=
       [ {| input_id := lit "email"; input_type := lit "email";
            input_required := true; input_minLength := None;
            input_value := VariantB.email f;
            input_disabled := ui_isSubmitting u |};
         {| input_id := lit "password"; input_type := lit "password";
            input_required := true; input_minLength := Some 8;
            input_value := VariantB.password f;
            input_disabled := ui_isSubmitting u |};
         {| input_id := lit "mobile"; input_type := lit "tel";
            input_required := true; input_minLength := None;
            input_value := VariantB.mobile f;
            input_disabled := ui_isSubmitting u |};
         {| input_id := lit "businessName"; input_type := lit "text";
            input_required := false; input_minLength := None;
            input_value := VariantB.businessName f;
            input_disabled := ui_isSubmitting u |} ];
     view_banner := error_banner (ui_error u);
     button_disabled := ui_isSubmitting u;
     button_label := submit_label (ui_isSubmitting u) |}.

End RenderB.

Definition render (sub : submission) (u : UiState) : View :=
  match sub with
  | SubmitA f => RenderA.SignupPage f u
  | SubmitB f => RenderB.SignupPage f u
  end.

(** The state a [setError] or [setIsSubmitting] leaves; the other effects
    do not touch it. *)
Definition apply_event (u : UiState) (e : event) : UiState :=
  match e with
  | SetError msg => {| ui_error := msg; ui_isSubmitting := ui_isSubmitting u |}
  | SetIsSubmitting b => {| ui_error := ui_error u; ui_isSubmitting := b |}
  | _ => u
  end.

Definition replay (u : UiState) (l : list event) : UiState :=
  fold_left apply_event l u.

(** Each effect paired with the form as rendered from the state it finds. *)
Fixpoint frames (sub : submission) (u : UiState) (l : list event)
    : list (event * View) :=
  match l with
  | [] => []
  | e :: l' => (e, render sub u) :: frames sub (apply_event u e) l'
  end.

(** Every input and the button are disabled and the button shows progress. *)
Definition locked (v : View) : Prop :=
  Forall (fun i => input_disabled i = true) (view_inputs v)
  /\ button_disabled v = true
  /\ button_label v = lit "Creating account...".

Definition is_signUp (e : event) : bool :=
  match e with
  | CallSignUp _ => true
  | _ => false
  end.

Definition signUp_calls (l : list event) : list event := filter is_signUp l.

(** ** Variant B seen as variant A with a phone number *)

Definition without_mobile (f : VariantB.Form) : VariantA.Form :=
  {| VariantA.email := VariantB.email f;
     VariantA.password := VariantB.password f;
     VariantA.businessName := VariantB.businessName f |}.

Definition add_phone (p : jsstring) (a : SignUpArgs) : SignUpArgs :=
  {| arg_email := arg_email a;
     arg_password := arg_password a;
     arg_phone := Some p |}.

(** The provider as variant A reaches it when every signup carries [p]. *)
Definition phone_backend (p : jsstring) (be : Backend) : Backend :=
  {| auth_signUp := fun a => auth_signUp be (add_phone p a);
     from_upsert := from_upsert be;
     push_outcome := push_outcome be |}.

Definition tag_phone (p : jsstring) (e : event) : event :=
  match e with
  | CallSignUp a => CallSignUp (add_phone p a)
  | _ => e
  end.

(** The characters a number accepted by [phonePattern] is made of. *)
Definition is_phone_char (c : N) : bool := is_digit c || is_char "+" c.

(** The remote steps of a run, by rank: identity creation, upsert,
    navigation. *)
Definition step_of (e : event) : option nat :=
  match e with
  | CallSignUp _ => Some 1
  | CallUpsert _ _ => Some 2
  | RouterPush _ => Some 3
  | _ => None
  end.

Fixpoint steps (l : list event) : list nat :=
  match l with
  | [] => []
  | e :: l' =>
      match step_of e with
      | Some k => k :: steps l'
      | None => steps l'
      end
  end.

(** ** Symbolic execution of the handler *)

Ltac unfold_handler :=
  cbv beta iota zeta delta
    [effects final_ui submit call_async handler
     VariantA.handleSubmit VariantB.handleSubmit VariantB.signUpWithEmail
     try_catch_finally bind when ret return_ setError setIsSubmitting
     preventDefault router_push await_signUp await_upsert emit settle
     ui log fst snd app negb truthy or_else
     sub_email sub_password sub_businessName signUp_args upsert_row
     optional_id option_map is_object usable_id destination
     VariantB.user VariantB.sessionExists VariantB.error
     VariantB.p_email VariantB.p_password VariantB.p_mobile
     resp_data resp_error upsert_error data_user data_session
     ui_error ui_isSubmitting] in *.

(** Case analysis on every test the handler makes, innermost first. *)
Ltac split_path :=
  repeat match goal with
  | |- context [match ?x with _ => _ end] =>
      lazymatch x with
      | context [match _ with _ => _ end] => fail
      | _ => destruct x eqn:?
      end; unfold_handler
  end.

(** Facts about the run brought to the shape the case analysis produces. *)
Ltac tidy :=
  repeat match goal with
  | H : _ /\ _ |- _ => destruct H
  | H : exists _, _ |- _ => destruct H
  | H : (_ && _)%bool = true |- _ => apply andb_true_iff in H
  | H : Resolves _ = Resolves _ |- _ => injection H as H
  | H : Rejects _ = Rejects _ |- _ => injection H as H
  | H : Some _ = Some _ |- _ => injection H as H
  | H : _ :: _ = _ :: _ |- _ => injection H as H
  | H : ?x = _ |- _ => is_var x; subst x
  | H : _ = ?x |- _ => is_var x; subst x
  | H : ?t = _, H' : context [match ?t with _ => _ end] |- _ =>
      rewrite H in H'; unfold_handler
  | H : auth_signUp ?b ?a = _, H' : auth_signUp ?b ?a = _ |- _ =>
      rewrite H in H'
  | H : from_upsert ?b ?t ?r = _, H' : from_upsert ?b ?t ?r = _ |- _ =>
      rewrite H in H'
  | H : push_outcome ?b ?t = _, H' : push_outcome ?b ?t = _ |- _ =>
      rewrite H in H'
  end;
  unfold_handler; try discriminate; try congruence.

Ltac exec sub u :=
  destruct sub as [?f|?f]; destruct u as [?err ?flag];
  unfold aborted_with, exception_raised, upsert_failed, provider_error,
    identity_created, fields_valid in *;
  unfold_handler; split_path; tidy.

(** * Properties *)

(** ** Strings *)

Lemma trimStart_nil_iff (s : jsstring) :
  trimStart s = [] <-> forallb is_space s = true.
Proof.
  induction s as [|c s IH]; simpl.
  - tauto.
  - destruct (is_space c); simpl; [exact IH | split; discriminate].
Qed.

(** A string trims to the empty string exactly when it is all white space. *)
Lemma trim_nil_iff (s : jsstring) :
  trim s = [] <-> forallb is_space s = true.
Proof.
  unfold trim, trimEnd. split.
  - intro H. apply (f_equal (@rev N)) in H. rewrite rev_involutive in H.
    simpl in H. apply trimStart_nil_iff in H.
    rewrite forallb_forall in H.
    assert (Hs : trimStart s = []).
    { destruct (trimStart s) as [|c t] eqn:E; [reflexivity|].
      assert (Hc : is_space c = true) by (apply H, in_rev; rewrite rev_involutive; now left).
      clear H. induction s as [|d s IH]; simpl in E; [discriminate|].
      destruct (is_space d) eqn:Ed; [now apply IH|].
      injection E as -> _. congruence. }
    now apply trimStart_nil_iff.
  - intro H. apply trimStart_nil_iff in H. now rewrite H.
Qed.

(** Normalization leaves no separator behind. *)
Lemma normalizeMobile_clean (s : jsstring) :
  forallb (fun c => negb (is_separator c)) (normalizeMobile s) = true.
Proof.
  unfold normalizeMobile, remove_all. apply forallb_forall.
  intros c Hc. now apply filter_In in Hc.
Qed.

(** ** The matcher decides the language *)

Section Matcher.

Lemma Lang_Seq_inv r1 r2 s :
  Lang (Seq r1 r2) s -> exists s1 s2, s = s1 ++ s2 /\ Lang r1 s1 /\ Lang r2 s2.
Proof. inversion 1; subst; eauto. Qed.

Lemma Lang_Alt_inv r1 r2 s : Lang (Alt r1 r2) s -> Lang r1 s \/ Lang r2 s.
Proof. inversion 1; subst; auto. Qed.

Lemma Lang_Class_inv p s : Lang (Class p) s -> exists c, s = [c] /\ p c = true.
Proof. inversion 1; subst; eauto. Qed.

Lemma Lang_Eps_inv s : Lang Eps s -> s = [].
Proof. now inversion 1. Qed.

Lemma Lang_Void_inv s : ~ Lang Void s.
Proof. inversion 1. Qed.

Lemma nullable_Lang r : nullable r = true <-> Lang r [].
Proof.
  induction r as [| |p|r1 IH1 r2 IH2|r1 IH1 r2 IH2]; simpl.
  - split; [discriminate | intro H; now apply Lang_Void_inv in H].
  - split; [constructor | reflexivity].
  - split; [discriminate|].
    intro H. apply Lang_Class_inv in H as (c & Hc & _). discriminate.
  - rewrite andb_true_iff, IH1, IH2. split.
    + intros [H1 H2]. change (@nil N) with (@nil N ++ []). now constructor.
    + intro H. apply Lang_Seq_inv in H as (s1 & s2 & E & H1 & H2).
      symmetry in E. apply app_eq_nil in E as [-> ->]. now split.
  - rewrite orb_true_iff, IH1, IH2. split.
    + intros [H|H]; [now apply LAltL | now apply LAltR].
    + apply Lang_Alt_inv.
Qed.

Lemma deriv_Lang c r : forall s, Lang (deriv c r) s <-> Lang r (c :: s).
Proof.
  induction r as [| |p|r1 IH1 r2 IH2|r1 IH1 r2 IH2]; intro s; simpl.
  - split; intro H; now apply Lang_Void_inv in H.
  - split; intro H; [now apply Lang_Void_inv in H | apply Lang_Eps_inv in H; discriminate].
  - split.
    + destruct (p c) eqn:E; intro H; [|now apply Lang_Void_inv in H].
      apply Lang_Eps_inv in H. subst. now constructor.
    + intro H. apply Lang_Class_inv in H as (d & E & Hd).
      injection E as -> ->. rewrite Hd. constructor.
  - assert (Hl : Lang (Seq (deriv c r1) r2) s -> Lang (Seq r1 r2) (c :: s)).
    { intro H. apply Lang_Seq_inv in H as (s1 & s2 & -> & H1 & H2).
      apply IH1 in H1. change (c :: s1 ++ s2) with ((c :: s1) ++ s2).
      now constructor. }
    assert (Hr : Lang (Seq r1 r2) (c :: s) ->
                 Lang (Seq (deriv c r1) r2) s
                 \/ (nullable r1 = true /\ Lang (deriv c r2) s)).
    { intro H. apply Lang_Seq_inv in H as (s1 & s2 & E & H1 & H2).
      destruct s1 as [|d s1]; simpl in E.
      - right. subst s2. split; [now apply nullable_Lang | now apply IH2].
      - left. injection E as <- ->. constructor; [now apply IH1 | assumption]. }
    destruct (nullable r1) eqn:N1.
    + split.
      * intro H. apply Lang_Alt_inv in H as [H|H]; [now apply Hl|].
        apply IH2 in H. change (c :: s) with ([] ++ c :: s).
        constructor; [now apply nullable_Lang | assumption].
      * intro H. apply Hr in H as [H|[_ H]]; [now apply LAltL | now apply LAltR].
    + split; [exact Hl|].
      intro H. apply Hr in H as [H|[H _]]; [assumption | discriminate].
  - split.
    + intro H. apply Lang_Alt_inv in H as [H|H];
        [apply LAltL; now apply IH1 | apply LAltR; now apply IH2].
    + intro H. apply Lang_Alt_inv in H as [H|H];
        [apply LAltL; now apply IH1 | apply LAltR; now apply IH2].
Qed.

Lemma matches_Lang s : forall r, matches r s = true <-> Lang r s.
Proof.
  induction s as [|c s IH]; intro r; simpl.
  - apply nullable_Lang.
  - rewrite IH. apply deriv_Lang.
Qed.

End Matcher.

(** ** Bounded repetition of a character class *)

Section Quantifiers.

Variable p : N -> bool.

Lemma Lang_power_class n : forall s,
  Lang (power (Class p) n) s <-> length s = n /\ forallb p s = true.
Proof.
  induction n as [|n IH]; intro s; simpl.
  - split.
    + intro H. apply Lang_Eps_inv in H. now subst.
    + intros [H _]. apply length_zero_iff_nil in H. subst. constructor.
  - split.
    + intro H. apply Lang_Seq_inv in H as (s1 & s2 & -> & H1 & H2).
      apply Lang_Class_inv in H1 as (c & -> & Hc). apply IH in H2 as [Hn Hp].
      simpl. rewrite Hc, Hp, Hn. now split.
    + intros [Hn Hp]. destruct s as [|c s]; [discriminate|].
      simpl in Hn, Hp. apply andb_true_iff in Hp as [Hc Hp].
      change (c :: s) with ([c] ++ s). constructor; [now constructor|].
      apply IH. split; [lia | assumption].
Qed.

Lemma Lang_upto_class n : forall s,
  Lang (upto (Class p) n) s <-> length s <= n /\ forallb p s = true.
Proof.
  induction n as [|n IH]; intro s; simpl.
  - split.
    + intro H. apply Lang_Eps_inv in H. subst. now split.
    + intros [H _]. destruct s; [constructor | simpl in H; lia].
  - unfold opt. split.
    + intro H. apply Lang_Alt_inv in H as [H|H].
      * apply Lang_Seq_inv in H as (s1 & s2 & -> & H1 & H2).
        apply Lang_Class_inv in H1 as (c & -> & Hc). apply IH in H2 as [Hn Hp].
        simpl. rewrite Hc, Hp. split; [lia | reflexivity].
      * apply Lang_Eps_inv in H. subst. simpl. split; [lia | reflexivity].
    + intros [Hn Hp]. destruct s as [|c s].
      * apply LAltR. constructor.
      * simpl in Hn, Hp. apply andb_true_iff in Hp as [Hc Hp].
        apply LAltL. change (c :: s) with ([c] ++ s).
        constructor; [now constructor|]. apply IH. split; [lia | assumption].
Qed.

Lemma forallb_firstn n (s : jsstring) :
  forallb p s = true -> forallb p (firstn n s) = true.
Proof.
  intro H. rewrite <- (firstn_skipn n s), forallb_app in H.
  now apply andb_true_iff in H.
Qed.

Lemma forallb_skipn n (s : jsstring) :
  forallb p s = true -> forallb p (skipn n s) = true.
Proof.
  intro H. rewrite <- (firstn_skipn n s), forallb_app in H.
  now apply andb_true_iff in H.
Qed.

(** [p{lo,hi}] holds the strings of [p] of length [lo] to [hi]. *)
Lemma Lang_quant_class lo hi s :
  lo <= hi ->
  Lang (quant (Class p) lo hi) s <->
  (lo <= length s /\ length s <= hi) /\ forallb p s = true.
Proof.
  intro Hle. unfold quant. split.
  - intro H. apply Lang_Seq_inv in H as (s1 & s2 & -> & H1 & H2).
    apply Lang_power_class in H1 as [L1 P1].
    apply Lang_upto_class in H2 as [L2 P2].
    rewrite length_app, forallb_app, P1, P2. repeat split; lia.
  - intros [[H1 H2] Hp]. rewrite <- (firstn_skipn lo s). constructor.
    + apply Lang_power_class. split; [|now apply forallb_firstn].
      rewrite length_firstn. lia.
    + apply Lang_upto_class. split; [|now apply forallb_skipn].
      rewrite length_skipn. lia.
Qed.

End Quantifiers.

(** ** The mobile pattern *)

Lemma digit19_not_plus c : is_digit19 c = true -> is_char "+" c = false.
Proof.
  unfold is_digit19, is_char, in_range, chr. simpl.
  rewrite andb_true_iff, !N.leb_le, N.eqb_neq. lia.
Qed.

Lemma Lang_phonePattern s :
  Lang phonePattern s <->
  exists sign d rest,
    s = sign ++ d :: rest
    /\ (sign = [] \/ sign = [chr "+"])
    /\ is_digit19 d = true
    /\ (7 <= length rest /\ length rest <= 14)
    /\ forallb is_digit rest = true.
Proof.
  unfold phonePattern, opt. split.
  - intro H. apply Lang_Seq_inv in H as (s1 & s2 & -> & H1 & H2).
    apply Lang_Seq_inv in H2 as (t1 & t2 & -> & H2 & H3).
    apply Lang_Class_inv in H2 as (d & -> & Hd).
    apply Lang_quant_class in H3 as [Hlen Hp]; [|lia].
    exists s1, d, t2. repeat split; try tauto; try assumption.
    apply Lang_Alt_inv in H1 as [H1|H1].
    + apply Lang_Class_inv in H1 as (c & -> & Hc). right.
      unfold is_char in Hc. apply N.eqb_eq in Hc. now subst.
    + apply Lang_Eps_inv in H1. now left.
  - intros (sign & d & rest & -> & Hs & Hd & Hlen & Hp). constructor.
    + destruct Hs as [-> | ->]; [apply LAltR; constructor|].
      apply LAltL. constructor. unfold is_char. apply N.eqb_refl.
    + change (d :: rest) with ([d] ++ rest). constructor; [now constructor|].
      apply Lang_quant_class; [lia | now split].
Qed.

(** The pattern of the source says what the spec's rule 4 says. *)
Lemma phonePattern_test_shape s : phonePattern_test s = valid_mobile_shape s.
Proof.
  apply eq_iff_eq_true. unfold phonePattern_test.
  rewrite matches_Lang, Lang_phonePattern. unfold valid_mobile_shape. split.
  - intros (sign & d & rest & -> & Hs & Hd & [H7 H14] & Hp).
    destruct Hs as [-> | ->]; cbn [app strip_plus].
    + rewrite (digit19_not_plus _ Hd), Hd, Hp.
      rewrite !andb_true_iff, !Nat.leb_le. tauto.
    + unfold is_char at 1. rewrite N.eqb_refl, Hd, Hp.
      rewrite !andb_true_iff, !Nat.leb_le. tauto.
  - intro H. destruct s as [|c s]; cbn [strip_plus] in H; [discriminate|].
    destruct (is_char "+" c) eqn:Ec.
    + destruct s as [|d rest]; [discriminate|].
      rewrite !andb_true_iff, !Nat.leb_le in H. destruct H as [[[Hd Hp] H7] H14].
      exists [chr "+"], d, rest. unfold is_char in Ec. apply N.eqb_eq in Ec.
      subst c. repeat split; auto.
    + rewrite !andb_true_iff, !Nat.leb_le in H. destruct H as [[[Hd Hp] H7] H14].
      exists [], c, s. repeat split; auto.
Qed.

(** ** Runs of the handler *)

(** The handler always settles normally. *)
Lemma submit_fulfilled sub be u : fst (submit sub be u) = Fulfilled.
Proof. exec sub u; reflexivity. Qed.

(** Identity creation is called exactly when the local rules pass, and then
    it is the first effect after the flag is raised. *)
Lemma signUp_reached sub be u :
  if fields_valid sub
  then exists rest,
         effects sub be u
         = [PreventDefault; SetError []; SetIsSubmitting true;
            CallSignUp (signUp_args sub)] ++ rest
  else network_calls (effects sub be u) = [].
Proof.
  exec sub u; simpl; solve [reflexivity | eexists; reflexivity].
Qed.

(** ** Specified behaviour *)

(** C1. In both variants the client-record upsert is attempted if and only if
    the identity-creation call was made and returned with no provider error
    and with a non-empty identity id; otherwise no upsert call is made. *)
Theorem upsert_iff_usable_identity sub be u :
  (exists table row, In (CallUpsert table row) (effects sub be u)) <->
  (exists r uid,
      In (CallSignUp (signUp_args sub)) (effects sub be u)
      /\ auth_signUp be (signUp_args sub) = Resolves r
      /\ resp_error r = None
      /\ usable_id r = Some uid).
Proof.
  exec sub u.
  all: split; intro H; tidy; simpl in *.
  all: try (exfalso; intuition discriminate).
  all: try (do 2 eexists; simpl; tauto).
  all: do 2 eexists; split; [| split; [reflexivity | split; [reflexivity |]]];
    [simpl; tauto | cbv beta iota].
  all: match goal with E : user_id _ = _ |- _ => rewrite E end; reflexivity.
Qed.

(** C2. In variant B, rule 4 of the ordered validation, reached when the
    email and password rules pass and the trimmed mobile is not empty: the
    mobile with white space, parentheses and hyphens removed must be an
    optional [+], a digit 1-9 and 7 to 14 more digits.  If it is, identity
    creation is called with the normalized number; if not, the attempt stops
    with exactly "Please enter a valid mobile number." and no network call.
    "0400 111 222" fails the rule, "+61400111222" passes unchanged. *)
Theorem mobile_format_rule f be u :
  trim (VariantB.email f) <> [] ->
  8 <= length (VariantB.password f) ->
  trim (VariantB.mobile f) <> [] ->
  let normalized := normalizeMobile (trim (VariantB.mobile f)) in
  (if valid_mobile_shape normalized
   then exists rest,
          effects (SubmitB f) be u
          = [PreventDefault; SetError []; SetIsSubmitting true;
             CallSignUp {| arg_email := trim (VariantB.email f);
                           arg_password := VariantB.password f;
                           arg_phone := Some normalized |}] ++ rest
   else aborted_with msg_mobile_invalid (SubmitB f) be u)
  /\ msg_mobile_invalid = lit "Please enter a valid mobile number."
  /\ valid_mobile_shape (normalizeMobile (trim (lit "0400 111 222"))) = false
  /\ normalizeMobile (trim (lit "+61400111222")) = lit "+61400111222"
  /\ valid_mobile_shape (lit "+61400111222") = true.
Proof.
  intros He Hp Hm normalized. subst normalized.
  split; [| repeat split; reflexivity].
  apply Nat.ltb_ge in Hp.
  rewrite <- phonePattern_test_shape.
  destruct u as [err flag]. unfold aborted_with. unfold_handler.
  split_path; tidy; simpl; solve [eexists; reflexivity | repeat split].
Qed.

Lemma mobile_format_rule_witness :
  exists rest,
    effects (SubmitB (Sample.formB "+61 (400) 111-222")) (Sample.online true) Sample.idle
    = [PreventDefault; SetError []; SetIsSubmitting true;
       CallSignUp {| arg_email := lit "owner@example.com";
                     arg_password := lit "correct horse";
                     arg_phone := Some (lit "+61400111222") |}] ++ rest.
Proof.
  refine (proj1 (mobile_format_rule (Sample.formB "+61 (400) 111-222")
                   (Sample.online true) Sample.idle _ _ _)).
  - vm_compute. discriminate.
  - vm_compute. lia.
  - vm_compute. discriminate.
Defined.

(** C3. When the identity provider reports an error, the rendered error is
    the provider's message if one is present and otherwise the fixed text
    "Unable to create your account. Please try again."; the upsert is not
    attempted in either case. *)
Theorem provider_error_rendered sub be u e :
  provider_error sub be e ->
  ui_error (final_ui sub be u)
  = match message e with
    | Some (c :: s) => c :: s
    | _ => msg_signup_failed
    end
  /\ msg_signup_failed = lit "Unable to create your account. Please try again."
  /\ upserts (effects sub be u) = [].
Proof.
  intro H. split; [| split; [reflexivity |]].
  - exec sub u; reflexivity.
  - exec sub u; reflexivity.
Qed.

Lemma provider_error_rendered_witness :
  ui_error (final_ui (SubmitA (Sample.formA "owner@example.com"))
              (Sample.refusing (Some (lit "User already registered")))
              Sample.idle)
  = lit "User already registered".
Proof.
  refine (proj1 (provider_error_rendered
                   (SubmitA (Sample.formA "owner@example.com"))
                   (Sample.refusing (Some (lit "User already registered")))
                   Sample.idle
                   {| message := Some (lit "User already registered") |} _)).
  split; [reflexivity | eexists; split; reflexivity].
Defined.

(** C4. When validation passes, identity creation succeeds with a usable id
    and the upsert succeeds, the handler navigates once: to /account/setup if
    the identity response carried a session, to /signup/check-email if not.
    No run ever navigates anywhere else. *)
Theorem navigation_target sub be u r uid up :
  identity_created sub be r uid ->
  from_upsert be table_clients (upsert_row sub uid) = Resolves up ->
  upsert_error up = None ->
  pushes (effects sub be u)
  = [RouterPush (if is_object (data_session (resp_data r))
                 then path_account_setup else path_check_email)]
  /\ path_account_setup = lit "/account/setup"
  /\ path_check_email = lit "/signup/check-email"
  /\ forall sub' be' u' path,
       In (RouterPush path) (effects sub' be' u') ->
       path = path_account_setup \/ path = path_check_email.
Proof.
  intros H Hup Hok. split; [| split; [reflexivity | split; [reflexivity |]]].
  - exec sub u; reflexivity.
  - clear. intros sub be u path.
    exec sub u; intro H; simpl in H.
    all: repeat destruct H as [H|H]; try discriminate H; try contradiction.
    all: injection H as <-; auto.
Qed.

Lemma navigation_target_witness :
  pushes (effects (SubmitB (Sample.formB "+61400111222")) (Sample.online false)
            Sample.idle)
  = [RouterPush (lit "/signup/check-email")].
Proof.
  refine (proj1 (navigation_target
                   (SubmitB (Sample.formB "+61400111222")) (Sample.online false)
                   Sample.idle (Sample.identity false) (lit "7f3a")
                   {| upsert_error := None |} _ _ _)).
  - repeat split.
  - reflexivity.
  - reflexivity.
Defined.

(** C5. When a step of the sequence throws (an awaited call rejects, or
    [router.push] throws), the exception is caught and the rendered error is
    "Something went wrong. Please try again.", the only message shown; and
    the handler's promise is fulfilled on every path of every run. *)
Theorem unexpected_exception_caught sub be u x :
  exception_raised sub be x ->
  fst (submit sub be u) = Fulfilled
  /\ ui_error (final_ui sub be u) = msg_unexpected
  /\ errors_shown (effects sub be u) = [SetError msg_unexpected]
  /\ msg_unexpected = lit "Something went wrong. Please try again."
  /\ forall sub' be' u', fst (submit sub' be' u') = Fulfilled.
Proof.
  intro H. split; [apply submit_fulfilled |].
  split; [| split; [| split; [reflexivity | intros; apply submit_fulfilled]]].
  - exec sub u; destruct H as [H|[H|H]]; tidy; reflexivity.
  - exec sub u; destruct H as [H|[H|H]]; tidy; reflexivity.
Qed.

Lemma unexpected_exception_caught_witness :
  fst (submit (SubmitA (Sample.formA "owner@example.com")) Sample.offline Sample.idle)
  = Fulfilled
  /\ ui_error (final_ui (SubmitA (Sample.formA "owner@example.com"))
                 Sample.offline Sample.idle)
     = lit "Something went wrong. Please try again.".
Proof.
  assert (H : exception_raised (SubmitA (Sample.formA "owner@example.com"))
                Sample.offline {| exn_text := lit "Failed to fetch" |})
    by (left; split; reflexivity).
  pose proof (unexpected_exception_caught
                (SubmitA (Sample.formA "owner@example.com"))
                Sample.offline Sample.idle _ H) as (H1 & H2 & _).
  split; [exact H1 | exact H2].
Defined.

(** C6 as stated fails on a local-validation failure: with an empty email the
    handler returns before it raises the flag, there is no finalization step
    on that path, and the error is displayed while [isSubmitting] is false. *)
Lemma submitting_flag_counterexample :
  effects (SubmitA (Sample.formA "   ")) (Sample.online true) Sample.idle
  = [PreventDefault; SetError []; SetError msg_email_required]
  /\ ~ submitting_window
         (effects (SubmitA (Sample.formA "   ")) (Sample.online true) Sample.idle)
  /\ busy_throughout false
       (effects (SubmitA (Sample.formA "   ")) (Sample.online true) Sample.idle)
     = false.
Proof.
  split; [reflexivity | split; [| reflexivity]].
  intros (mid & H & _). vm_compute in H. discriminate H.
Qed.

(** C6, amended. When local validation passes, [isSubmitting] is set to true
    before the first remote call, is true at every remote call, navigation
    and error display, is not written again while the sequence runs, and is
    set to false as the last effect of the attempt on every exit path
    (success, handled error, exception).  When local validation fails the
    handler never writes [isSubmitting], which keeps its prior value. *)
Theorem submitting_flag_window sub be u :
  if fields_valid sub
  then submitting_window (effects sub be u)
       /\ busy_throughout (ui_isSubmitting u) (effects sub be u) = true
       /\ ui_isSubmitting (final_ui sub be u) = false
  else filter is_flag_write (effects sub be u) = []
       /\ ui_isSubmitting (final_ui sub be u) = ui_isSubmitting u.
Proof.
  unfold submitting_window.
  exec sub u; simpl.
  all: try (split; reflexivity).
  all: split; [| split; reflexivity].
  all: match goal with
       | |- exists mid, ?l = _ /\ _ =>
           exists (removelast (skipn 3 l)); split; reflexivity
       end.
Qed.

(** C7. Local validation runs in a fixed order (email, password, then in
    variant B mobile presence and mobile format) and stops at the first rule
    that fails: the attempt shows that rule's message, and only it, with no
    network call.  An email that is empty after trimming gives "Email is
    required."; a non-empty one with a password shorter than 8 gives
    "Password must be at least 8 characters.". *)
Theorem validation_order sub be u :
  match first_failure sub with
  | Some msg =>
      aborted_with msg sub be u
      /\ errors_shown (effects sub be u) = [SetError msg]
  | None =>
      exists rest,
        effects sub be u
        = [PreventDefault; SetError []; SetIsSubmitting true;
           CallSignUp (signUp_args sub)] ++ rest
  end
  /\ (trim (sub_email sub) = [] ->
      aborted_with (lit "Email is required.") sub be u)
  /\ (trim (sub_email sub) <> [] -> length (sub_password sub) < 8 ->
      aborted_with (lit "Password must be at least 8 characters.") sub be u).
Proof.
  unfold first_failure. rewrite <- !Nat.ltb_lt.
  destruct sub as [f|f]; unfold aborted_with;
    try rewrite <- phonePattern_test_shape;
    destruct u as [err flag]; unfold_handler; split_path; tidy; simpl.
  all: repeat split; try reflexivity; try (eexists; reflexivity).
  all: try (intros; congruence).
  all: intros; discriminate.
Qed.

Lemma validation_order_witness :
  aborted_with (lit "Email is required.")
    (SubmitA (Sample.formA "   ")) Sample.offline Sample.idle.
Proof.
  refine (proj1 (proj2 (validation_order (SubmitA (Sample.formA "   "))
                          Sample.offline Sample.idle)) _).
  reflexivity.
Defined.

(** C8. Every upsert the handler sends goes to the clients table with the id
    the provider returned; its row carries [business_name] exactly when the
    business-name field is non-empty after trimming, holding the trimmed
    text, and never carries an empty [business_name]. *)
Theorem upsert_payload sub be u table row :
  In (CallUpsert table row) (effects sub be u) ->
  table = lit "clients"
  /\ (exists r,
        auth_signUp be (signUp_args sub) = Resolves r
        /\ usable_id r = Some (id row))
  /\ business_name row
     = match trim (sub_businessName sub) with
       | [] => None
       | c :: s => Some (c :: s)
       end
  /\ business_name row <> Some [].
Proof.
  exec sub u; intro H; simpl in H.
  all: repeat destruct H as [H|H]; try discriminate H; try contradiction.
  all: injection H as <- <-; unfold build_payload; unfold_handler.
  all: match goal with E : user_id _ = _ |- _ => try rewrite E end.
  all: destruct (trim _) eqn:Eb; simpl.
  all: repeat split; try discriminate.
  all: eexists; split; [reflexivity |]; cbv beta iota.
  all: match goal with E : user_id _ = _ |- _ => rewrite E end; reflexivity.
Qed.

Lemma upsert_payload_witness :
  In (CallUpsert (lit "clients")
        {| id := lit "7f3a"; business_name := Some (lit "Acme Floors") |})
     (effects (SubmitA (Sample.formA "owner@example.com"))
        (Sample.online true) Sample.idle)
  /\ Some (lit "Acme Floors") <> Some [].
Proof.
  assert (H : In (CallUpsert (lit "clients")
                    {| id := lit "7f3a"; business_name := Some (lit "Acme Floors") |})
                 (effects (SubmitA (Sample.formA "owner@example.com"))
                    (Sample.online true) Sample.idle))
    by (vm_compute; tauto).
  pose proof (upsert_payload _ _ _ _ _ H) as (_ & _ & _ & H2).
  split; [exact H | exact H2].
Defined.

(** C9 as stated fails when [router.push] throws: the call sits inside the
    [try], so the run navigates to /account/setup and then displays the
    generic error. *)
Lemma navigation_error_counterexample :
  pushes (effects (SubmitA (Sample.formA "owner@example.com"))
            (Sample.jammed true) Sample.idle)
  = [RouterPush (lit "/account/setup")]
  /\ errors_shown (effects (SubmitA (Sample.formA "owner@example.com"))
                     (Sample.jammed true) Sample.idle)
     = [SetError (lit "Something went wrong. Please try again.")]
  /\ ui_error (final_ui (SubmitA (Sample.formA "owner@example.com"))
                 (Sample.jammed true) Sample.idle)
     = lit "Something went wrong. Please try again.".
Proof. repeat split. Qed.

(** C9, amended. A run of the handler navigates at most once, and no error
    message has been set when it does: every error path returns before any
    navigation.  When the navigation call returns, the run shows no error at
    all; only when [router.push] itself throws is an error shown after it,
    and it is the generic "Something went wrong. Please try again.". *)
Theorem navigation_excludes_error sub be u :
  length (pushes (effects sub be u)) <= 1
  /\ (pushes (effects sub be u) = []
      \/ exists pre path post,
           effects sub be u = pre ++ RouterPush path :: post
           /\ errors_shown pre = []
           /\ match push_outcome be path with
              | Resolves _ =>
                  errors_shown post = []
                  /\ ui_error (final_ui sub be u) = []
              | Rejects _ =>
                  errors_shown post = [SetError msg_unexpected]
                  /\ ui_error (final_ui sub be u) = msg_unexpected
              end).
Proof.
  exec sub u; simpl; (split; [lia |]).
  all: try (left; reflexivity).
  all: right.
  all: match goal with
       | |- exists pre path post, ?l = _ /\ _ =>
           exists (firstn 5 l), (match nth 5 l PreventDefault with
                                 | RouterPush p => p
                                 | _ => []
                                 end), (skipn 6 l)
       end; cbn [firstn skipn nth app].
  all: split; [reflexivity | split; [reflexivity |]].
  all: match goal with
       | E : push_outcome _ _ = _ |- _ => rewrite E
       end; split; reflexivity.
Qed.

(** C10. An error object whose [message] is the empty string is rendered as
    the fixed fallback text of its branch, which is not empty, like an error
    object with no message at all: on the identity-creation branch and on the
    upsert branch. *)
Theorem empty_message_fallback sub be u e :
  message e = Some [] \/ message e = None ->
  (provider_error sub be e ->
   ui_error (final_ui sub be u) = msg_signup_failed)
  /\ (upsert_failed sub be e ->
      ui_error (final_ui sub be u) = msg_setup_failed)
  /\ msg_signup_failed <> [] /\ msg_setup_failed <> []
  /\ msg_setup_failed
     = lit "Your account was created, but setup failed. Please try logging in.".
Proof.
  intro Hm.
  split; [| split; [| split; [discriminate | split; [discriminate | reflexivity]]]].
  - intro H. exec sub u; destruct Hm; tidy; reflexivity.
  - intro H. exec sub u; destruct Hm; tidy; reflexivity.
Qed.

Lemma empty_message_fallback_witness :
  ui_error (final_ui (SubmitB (Sample.formB "+61400111222"))
              (Sample.half (Some [])) Sample.idle)
  = lit "Your account was created, but setup failed. Please try logging in.".
Proof.
  refine (proj1 (proj2 (empty_message_fallback
                          (SubmitB (Sample.formB "+61400111222"))
                          (Sample.half (Some [])) Sample.idle
                          {| message := Some [] |} (or_introl eq_refl))) _).
  exists (Sample.identity false), (lit "7f3a"), {| upsert_error := Some {| message := Some [] |} |}.
  repeat split.
Defined.

(** * Further properties of the page *)

(** ** Trimming and normalization *)

Lemma trimStart_head c t s : trimStart s = c :: t -> is_space c = false.
Proof.
  induction s as [|d s IH]; simpl; [discriminate|].
  destruct (is_space d) eqn:E; [exact IH|].
  intro H. injection H as <- _. exact E.
Qed.

Lemma trimStart_snoc s d :
  is_space d = false -> trimStart (s ++ [d]) = trimStart s ++ [d].
Proof.
  intro Hd. induction s as [|c s IH]; simpl.
  - now rewrite Hd.
  - destruct (is_space c); [exact IH | reflexivity].
Qed.

Lemma trimEnd_cons d s :
  is_space d = false -> trimEnd (d :: s) = d :: trimEnd s.
Proof.
  intro Hd. unfold trimEnd. simpl.
  now rewrite trimStart_snoc, rev_app_distr.
Qed.

Lemma trimEnd_last c t s d : trimEnd s = c :: t -> is_space (last (c :: t) d) = false.
Proof.
  unfold trimEnd. intro H.
  apply (f_equal (@rev N)) in H. rewrite rev_involutive in H.
  destruct (rev (c :: t)) as [|x r] eqn:E.
  - apply (f_equal (@rev N)) in E. rewrite rev_involutive in E. discriminate.
  - apply trimStart_head in H.
    apply (f_equal (@rev N)) in E. rewrite rev_involutive in E. simpl in E.
    rewrite E, last_last. exact H.
Qed.

(** What [trim] returns neither starts nor ends with white space. *)
Lemma trim_edges c t s d :
  trim s = c :: t ->
  is_space c = false /\ is_space (last (c :: t) d) = false.
Proof.
  unfold trim. intro H. split; [| now apply (trimEnd_last _ _ _ d H)].
  destruct (trimStart s) as [|x r] eqn:E; [discriminate|].
  pose proof (trimStart_head _ _ _ E) as Hx.
  rewrite (trimEnd_cons _ _ Hx) in H. now injection H as <- _.
Qed.

Lemma space_is_separator c : is_space c = true -> is_separator c = true.
Proof. unfold is_separator. now intros ->. Qed.

Lemma normalizeMobile_trimStart s :
  normalizeMobile (trimStart s) = normalizeMobile s.
Proof.
  unfold normalizeMobile, remove_all.
  induction s as [|c s IH]; simpl; [reflexivity|].
  destruct (is_space c) eqn:E; [| reflexivity].
  now rewrite (space_is_separator _ E).
Qed.

Lemma normalizeMobile_rev s : normalizeMobile (rev s) = rev (normalizeMobile s).
Proof. unfold normalizeMobile, remove_all. apply filter_rev. Qed.

(** Trimming first makes no difference to the normalized number. *)
Lemma normalizeMobile_trim s : normalizeMobile (trim s) = normalizeMobile s.
Proof.
  unfold trim, trimEnd.
  now rewrite normalizeMobile_rev, normalizeMobile_trimStart, normalizeMobile_rev,
    rev_involutive, normalizeMobile_trimStart.
Qed.

Lemma phone_char_not_separator c :
  is_phone_char c = true -> is_separator c = false.
Proof.
  unfold is_phone_char, is_digit, is_char, in_range, chr. simpl.
  rewrite orb_true_iff, andb_true_iff, !N.leb_le, N.eqb_eq. intro H.
  assert (Hc : (c = 43 \/ c = 48 \/ c = 49 \/ c = 50 \/ c = 51 \/ c = 52
                \/ c = 53 \/ c = 54 \/ c = 55 \/ c = 56 \/ c = 57)%N) by lia.
  clear H. repeat destruct Hc as [-> | Hc]; try subst c; reflexivity.
Qed.

Lemma digit19_is_digit c : is_digit19 c = true -> is_digit c = true.
Proof.
  unfold is_digit19, is_digit, in_range, chr. simpl.
  rewrite !andb_true_iff, !N.leb_le. lia.
Qed.

(** A string of the accepted shape: 8 to 16 code units, digits after an
    optional plus, no separator. *)
Lemma valid_shape_facts p :
  valid_mobile_shape p = true ->
  (8 <= length p /\ length p <= 16)
  /\ forallb is_phone_char p = true
  /\ normalizeMobile (trim p) = p.
Proof.
  intro H.
  assert (Hf : (8 <= length p /\ length p <= 16) /\ forallb is_phone_char p = true).
  { unfold valid_mobile_shape in H.
    assert (Hrest : forall d rest,
               is_digit19 d && forallb is_digit rest
               && (7 <=? length rest) && (length rest <=? 14) = true ->
               (8 <= length (d :: rest) /\ length (d :: rest) <= 15)
               /\ forallb is_phone_char (d :: rest) = true).
    { intros d rest Hr.
      rewrite !andb_true_iff, !Nat.leb_le in Hr. destruct Hr as [[[Hd Hp] H7] H14].
      cbn [length forallb]. split; [lia|].
      unfold is_phone_char at 1. rewrite (digit19_is_digit _ Hd). cbn [orb andb].
      rewrite forallb_forall in *. intros c Hc. unfold is_phone_char.
      now rewrite (Hp c Hc). }
    destruct p as [|c p]; cbn [strip_plus] in H; [discriminate|].
    destruct (is_char "+" c) eqn:Ec.
    - destruct p as [|d rest]; [discriminate|].
      apply Hrest in H as [Hl Hc]. cbn [length] in *. split; [lia|].
      change (forallb is_phone_char (c :: d :: rest))
        with (is_phone_char c && forallb is_phone_char (d :: rest)).
      rewrite Hc. unfold is_phone_char. now rewrite Ec, orb_true_r.
    - apply Hrest in H as [Hl Hc]. split; [lia | exact Hc]. }
  split; [exact (proj1 Hf) | split; [exact (proj2 Hf)|]].
  rewrite normalizeMobile_trim. unfold normalizeMobile, remove_all.
  apply forallb_filter_id. destruct Hf as [_ Hf].
  rewrite forallb_forall in *. intros c Hc.
  now rewrite (phone_char_not_separator _ (Hf c Hc)).
Qed.

(** The final state is the initial one with the logged writes applied. *)
Lemma final_ui_replay sub be u : final_ui sub be u = replay u (effects sub be u).
Proof. exec sub u; reflexivity. Qed.

(** ** What reaches the provider *)

(** X1. With a mobile that passes its two rules, variant B behaves as
    variant A does on the same email, password and business name against a
    provider that receives the normalized number with every signup: the same
    effects, the number added to the signup call, and the same final state. *)
Theorem mobile_variant_agrees f be u :
  trim (VariantB.mobile f) <> [] ->
  valid_mobile_shape (normalizeMobile (trim (VariantB.mobile f))) = true ->
  effects (SubmitB f) be u
  = map (tag_phone (normalizeMobile (trim (VariantB.mobile f))))
        (effects (SubmitA (without_mobile f))
           (phone_backend (normalizeMobile (trim (VariantB.mobile f))) be) u)
  /\ final_ui (SubmitB f) be u
     = final_ui (SubmitA (without_mobile f))
         (phone_backend (normalizeMobile (trim (VariantB.mobile f))) be) u.
Proof.
  intros Hm Hv. rewrite <- phonePattern_test_shape in Hv.
  destruct be as [su up nav], u as [err flag].
  unfold without_mobile, phone_backend, add_phone. unfold_handler.
  cbv beta iota delta
    [VariantA.email VariantA.password VariantA.businessName
     auth_signUp from_upsert push_outcome arg_email arg_password].
  rewrite Hv. destruct (trim (VariantB.mobile f)) as [|c t] eqn:Em; [congruence|].
  split_path; split; reflexivity.
Qed.

Lemma mobile_variant_agrees_witness :
  effects (SubmitB (Sample.formB "+61 (400) 111-222")) (Sample.refusing None)
    Sample.idle
  = map (tag_phone (lit "+61400111222"))
        (effects (SubmitA (without_mobile (Sample.formB "+61 (400) 111-222")))
           (phone_backend (lit "+61400111222") (Sample.refusing None))
           Sample.idle).
Proof.
  refine (proj1 (mobile_variant_agrees (Sample.formB "+61 (400) 111-222")
                   (Sample.refusing None) Sample.idle _ _)).
  - vm_compute. discriminate.
  - reflexivity.
Defined.

(** X2. The phone number of a signup call: variant A sends none; variant B
    sends the mobile field with its separators removed, and that number is an
    optional plus followed by digits only, 8 to 16 code units long. *)
Theorem phone_sent_wellformed sub be u a :
  In (CallSignUp a) (effects sub be u) ->
  match sub with
  | SubmitA _ => arg_phone a = None
  | SubmitB f =>
      exists p,
        arg_phone a = Some p
        /\ p = normalizeMobile (VariantB.mobile f)
        /\ valid_mobile_shape p = true
        /\ (8 <= length p /\ length p <= 16)
        /\ forallb is_phone_char p = true
  end.
Proof.
  destruct sub as [f|f].
  - destruct u as [err flag]. unfold_handler. split_path; intro H; simpl in H.
    all: repeat destruct H as [H|H]; try discriminate H; try contradiction.
    all: now injection H as <-.
  - destruct u as [err flag]. unfold_handler.
    remember (normalizeMobile (trim (VariantB.mobile f))) as p eqn:Ep.
    assert (Ht : p = normalizeMobile (VariantB.mobile f))
      by (rewrite Ep; apply normalizeMobile_trim).
    clear Ep. destruct (phonePattern_test p) eqn:Hv.
    + pose proof Hv as Hs. rewrite phonePattern_test_shape in Hs.
      pose proof (valid_shape_facts _ Hs) as (Hl & Hc & _).
      split_path; intro H; cbn [In] in H.
      all: repeat destruct H as [H|H]; try discriminate H; try contradiction.
      all: injection H as <-; exists p; auto.
    + split_path; intro H; cbn [In] in H.
      all: repeat destruct H as [H|H]; try discriminate H; contradiction.
Qed.

Lemma phone_sent_wellformed_witness :
  exists p,
    Some (lit "+61400111222") = Some p
    /\ p = normalizeMobile (lit "+61 (400) 111-222")
    /\ valid_mobile_shape p = true
    /\ (8 <= length p /\ length p <= 16)
    /\ forallb is_phone_char p = true.
Proof.
  refine (phone_sent_wellformed
            (SubmitB (Sample.formB "+61 (400) 111-222")) (Sample.online true)
            Sample.idle
            {| arg_email := lit "owner@example.com";
               arg_password := lit "correct horse";
               arg_phone := Some (lit "+61400111222") |} _).
  vm_compute. tauto.
Defined.

(** X3. The credentials of a signup call: the email is the trimmed field,
    is not empty and neither starts nor ends with white space; the password
    is the field as typed, untrimmed, and has at least 8 code units. *)
Theorem credentials_sent sub be u a :
  In (CallSignUp a) (effects sub be u) ->
  arg_email a = trim (sub_email sub)
  /\ (exists c t,
        arg_email a = c :: t
        /\ is_space c = false
        /\ is_space (last (c :: t) c) = false)
  /\ arg_password a = sub_password sub
  /\ 8 <= length (arg_password a).
Proof.
  assert (Hedge : forall c t, trim (sub_email sub) = c :: t ->
            is_space c = false /\ is_space (last (c :: t) c) = false)
    by (intros c t E; exact (trim_edges c t _ c E)).
  exec sub u; intro H; cbn [In] in H.
  all: repeat destruct H as [H|H]; try discriminate H; try contradiction.
  all: injection H as <-; cbn [arg_email arg_password].
  all: split; [reflexivity | split; [| split; [reflexivity |]]].
  all: try (do 2 eexists; split; [reflexivity | apply Hedge; reflexivity]).
  all: now apply Nat.ltb_ge.
Qed.

Lemma credentials_sent_witness :
  lit "owner@example.com" = trim (lit " owner@example.com ")
  /\ 8 <= length (lit "correct horse").
Proof.
  pose proof (credentials_sent
                (SubmitB (Sample.formB "+61400111222")) (Sample.online true)
                Sample.idle
                {| arg_email := lit "owner@example.com";
                   arg_password := lit "correct horse";
                   arg_phone := Some (lit "+61400111222") |}) as H.
  destruct H as (H1 & _ & _ & H4); [vm_compute; tauto |].
  split; [exact H1 | exact H4].
Defined.

(** X4. A mobile typed in the accepted shape is sent exactly as typed: once
    the email and password rules pass, the signup call carries the field
    unchanged. *)
Theorem canonical_mobile_unchanged f be u :
  trim (VariantB.email f) <> [] ->
  8 <= length (VariantB.password f) ->
  valid_mobile_shape (VariantB.mobile f) = true ->
  In (CallSignUp {| arg_email := trim (VariantB.email f);
                    arg_password := VariantB.password f;
                    arg_phone := Some (VariantB.mobile f) |})
     (effects (SubmitB f) be u).
Proof.
  intros He Hp Hv. apply Nat.ltb_ge in Hp.
  pose proof (valid_shape_facts _ Hv) as ([Hl _] & _ & Hn).
  assert (Ht : trim (VariantB.mobile f) <> []).
  { intro E. rewrite E in Hn. unfold normalizeMobile, remove_all in Hn.
    simpl in Hn. rewrite <- Hn in Hl. simpl in Hl. lia. }
  rewrite <- phonePattern_test_shape in Hv.
  destruct u as [err flag]. unfold_handler.
  rewrite Hn, Hv, Hp.
  destruct (trim (VariantB.email f)); [congruence|].
  destruct (trim (VariantB.mobile f)); [congruence|].
  split_path; simpl; tauto.
Qed.

Lemma canonical_mobile_unchanged_witness :
  In (CallSignUp {| arg_email := lit "owner@example.com";
                    arg_password := lit "correct horse";
                    arg_phone := Some (lit "+61400111222") |})
     (effects (SubmitB (Sample.formB "+61400111222")) Sample.offline Sample.idle).
Proof.
  refine (canonical_mobile_unchanged (Sample.formB "+61400111222")
            Sample.offline Sample.idle _ _ _).
  - vm_compute. discriminate.
  - vm_compute. lia.
  - reflexivity.
Defined.

(** X5. How a mobile is formatted does not matter: two submissions that
    differ only in the mobile field, both non-blank and with the same digits
    and plus once white space, parentheses and hyphens are removed, run
    identically. *)
Theorem mobile_formatting_irrelevant f1 f2 be u :
  VariantB.email f1 = VariantB.email f2 ->
  VariantB.password f1 = VariantB.password f2 ->
  VariantB.businessName f1 = VariantB.businessName f2 ->
  trim (VariantB.mobile f1) <> [] ->
  trim (VariantB.mobile f2) <> [] ->
  normalizeMobile (VariantB.mobile f1) = normalizeMobile (VariantB.mobile f2) ->
  submit (SubmitB f1) be u = submit (SubmitB f2) be u.
Proof.
  intros He Hp Hb H1 H2 Hn.
  unfold_handler. rewrite !normalizeMobile_trim, He, Hp, Hb, Hn.
  destruct (trim (VariantB.mobile f1)); [congruence|].
  destruct (trim (VariantB.mobile f2)); [congruence|].
  reflexivity.
Qed.

Lemma mobile_formatting_irrelevant_witness :
  submit (SubmitB (Sample.formB "+61 (400) 111-222")) (Sample.online true) Sample.idle
  = submit (SubmitB (Sample.formB "+61400111222")) (Sample.online true) Sample.idle.
Proof.
  refine (mobile_formatting_irrelevant
            (Sample.formB "+61 (400) 111-222") (Sample.formB "+61400111222")
            (Sample.online true) Sample.idle _ _ _ _ _ _);
    try reflexivity; vm_compute; discriminate.
Defined.

(** ** Outcomes of a run *)

(** X6. No retries: a run calls identity creation once when the local rules
    pass and not at all otherwise, and sends at most one upsert, never more
    upserts than signups. *)
Theorem no_retries sub be u :
  length (signUp_calls (effects sub be u)) = (if fields_valid sub then 1 else 0)
  /\ length (upserts (effects sub be u)) <= 1
  /\ length (upserts (effects sub be u))
     <= length (signUp_calls (effects sub be u)).
Proof.
  exec sub u; simpl; repeat split; lia.
Qed.

(** X7. The handler navigates exactly when everything succeeded: the local
    rules pass, identity creation answers with no error and a usable id, and
    the upsert of that identity's row answers with no error. *)
Theorem navigation_iff_all_succeeded sub be u :
  pushes (effects sub be u) <> [] <->
  (exists r uid up,
      identity_created sub be r uid
      /\ from_upsert be table_clients (upsert_row sub uid) = Resolves up
      /\ upsert_error up = None).
Proof.
  exec sub u.
  all: split; [intro H | intros (r & uid & up & H)]; tidy; simpl in *.
  all: try congruence; try discriminate.
  all: do 3 eexists; unfold identity_created, fields_valid; unfold_handler.
  all: repeat match goal with
       | E : _ = _ |- _ => rewrite E
       end; unfold_handler.
  all: repeat split; try reflexivity; try eassumption.
  all: match goal with E : user_id _ = _ |- _ => rewrite E end; reflexivity.
Qed.

(** X8. When the upsert answers with an error the identity stays created:
    the rendered error is the error's message if it has one and "Your account
    was created, but setup failed. Please try logging in." otherwise, the run
    does not navigate, makes no second signup or upsert call, and clears the
    submitting flag. *)
Theorem upsert_failure_rendered sub be u e :
  upsert_failed sub be e ->
  ui_error (final_ui sub be u)
  = match message e with
    | Some (c :: s) => c :: s
    | _ => msg_setup_failed
    end
  /\ pushes (effects sub be u) = []
  /\ length (signUp_calls (effects sub be u)) = 1
  /\ length (upserts (effects sub be u)) = 1
  /\ ui_isSubmitting (final_ui sub be u) = false.
Proof.
  intro H. exec sub u; repeat split; congruence.
Qed.

Lemma upsert_failure_rendered_witness :
  ui_error (final_ui (SubmitA (Sample.formA "owner@example.com"))
              (Sample.half (Some (lit "duplicate key"))) Sample.idle)
  = lit "duplicate key".
Proof.
  refine (proj1 (upsert_failure_rendered
                   (SubmitA (Sample.formA "owner@example.com"))
                   (Sample.half (Some (lit "duplicate key"))) Sample.idle
                   {| message := Some (lit "duplicate key") |} _)).
  exists (Sample.identity false), (lit "7f3a"),
    {| upsert_error := Some {| message := Some (lit "duplicate key") |} |}.
  repeat split.
Defined.

(** X9. When identity creation answers with no error but without a user, or
    with a user whose id is empty, the rendered error is "Unable to create
    your account. Please try again.", the signup call is the only network
    call of the run and the run does not navigate. *)
Theorem missing_identity_id sub be u r :
  fields_valid sub = true ->
  auth_signUp be (signUp_args sub) = Resolves r ->
  resp_error r = None ->
  usable_id r = None ->
  ui_error (final_ui sub be u) = msg_signup_failed
  /\ network_calls (effects sub be u) = [CallSignUp (signUp_args sub)]
  /\ pushes (effects sub be u) = [].
Proof.
  intros Hv Hr He Hid. exec sub u; repeat split.
Qed.

Lemma missing_identity_id_witness :
  ui_error (final_ui (SubmitA (Sample.formA "owner@example.com"))
              {| auth_signUp := fun _ =>
                   Resolves {| resp_data := {| data_user := Some {| user_id := [] |};
                                               data_session := None |};
                               resp_error := None |};
                 from_upsert := fun _ _ => Resolves {| upsert_error := None |};
                 push_outcome := fun _ => Resolves tt |}
              Sample.idle)
  = lit "Unable to create your account. Please try again.".
Proof.
  refine (proj1 (missing_identity_id
                   (SubmitA (Sample.formA "owner@example.com")) _ Sample.idle
                   {| resp_data := {| data_user := Some {| user_id := [] |};
                                      data_session := None |};
                      resp_error := None |} _ _ _ _)); reflexivity.
Defined.

(** X10. A run does not depend on what the page showed before it: its
    effects, the error it leaves and the way it settles are the same from any
    two prior states. *)
Theorem prior_state_irrelevant sub be u1 u2 :
  effects sub be u1 = effects sub be u2
  /\ ui_error (final_ui sub be u1) = ui_error (final_ui sub be u2)
  /\ fst (submit sub be u1) = fst (submit sub be u2).
Proof.
  destruct u2 as [err2 flag2]. exec sub u1; repeat split.
Qed.

(** ** The rendered form during and after a run *)

(** X11. Whenever a remote call of a run is in flight the form is rendered
    with every input and the submit button disabled and the button reading
    "Creating account..."; and when the local rules pass, the form rendered
    after the run has its inputs and button enabled again and the button
    reading "Create account". *)
Theorem form_locked_in_flight sub be u :
  Forall (fun ev => if is_network (fst ev) then locked (snd ev) else True)
         (frames sub u (effects sub be u))
  /\ (if fields_valid sub
      then Forall (fun i => input_disabled i = false)
                  (view_inputs (render sub (final_ui sub be u)))
           /\ button_disabled (render sub (final_ui sub be u)) = false
           /\ button_label (render sub (final_ui sub be u)) = lit "Create account"
      else True).
Proof.
  unfold locked.
  exec sub u; simpl.
  all: split; [| try exact I; repeat constructor].
  all: repeat (constructor; simpl); try exact I.
Qed.

(** X12. Every run gives feedback: if the form rendered after it has no
    error banner, the run navigated once and showed no error; if it has a
    banner, the banner's text is the one error the run showed, and the run
    did not navigate unless the navigation call itself threw, in which case
    the banner is the generic message. *)
Theorem feedback_always sub be u :
  match view_banner (render sub (final_ui sub be u)) with
  | None =>
      length (pushes (effects sub be u)) = 1
      /\ errors_shown (effects sub be u) = []
  | Some msg =>
      errors_shown (effects sub be u) = [SetError msg]
      /\ (pushes (effects sub be u) = []
          \/ (msg = msg_unexpected
              /\ exists path x,
                   pushes (effects sub be u) = [RouterPush path]
                   /\ push_outcome be path = Rejects x))
  end.
Proof.
  unfold render, RenderA.SignupPage, RenderB.SignupPage, error_banner.
  destruct sub as [f|f]; cbn [view_banner]; destruct u as [err flag];
    unfold_handler; split_path; tidy; (split; [reflexivity |]).
  all: try reflexivity.
  all: try (left; reflexivity).
  all: right; split; [congruence |]; do 2 eexists; split;
    [reflexivity | eassumption].
Qed.

(** ** Edge cases of the local rules *)

(** X13. The attempt stops with "Email is required." exactly when the email
    field holds nothing but white space (or nothing at all), where white
    space is every character [trim] removes. *)
Theorem blank_email_iff sub be u :
  aborted_with msg_email_required sub be u
  <-> forallb is_space (sub_email sub) = true.
Proof.
  rewrite <- trim_nil_iff.
  exec sub u; split; intro H; tidy; try discriminate; repeat split.
Qed.

Lemma normalizeMobile_separators s :
  forallb is_separator s = true -> normalizeMobile s = [].
Proof.
  unfold normalizeMobile, remove_all.
  induction s as [|c s IH]; [reflexivity|].
  cbn [forallb filter]. rewrite andb_true_iff. intros [Hc Hs].
  rewrite Hc. cbn [negb]. now apply IH.
Qed.

(** X14. A mobile that is not blank but holds only separators (white space
    inside parentheses, hyphens) is refused as malformed, not as missing:
    once the email and password rules pass the attempt stops with "Please
    enter a valid mobile number.". *)
Theorem separators_only_mobile f be u :
  trim (VariantB.email f) <> [] ->
  8 <= length (VariantB.password f) ->
  trim (VariantB.mobile f) <> [] ->
  forallb is_separator (VariantB.mobile f) = true ->
  aborted_with msg_mobile_invalid (SubmitB f) be u.
Proof.
  intros He Hp Hm Hs. apply Nat.ltb_ge in Hp.
  assert (Hn : normalizeMobile (trim (VariantB.mobile f)) = [])
    by (rewrite normalizeMobile_trim; now apply normalizeMobile_separators).
  destruct u as [err flag]. unfold aborted_with. unfold_handler.
  rewrite Hn, Hp.
  destruct (trim (VariantB.email f)); [congruence|].
  destruct (trim (VariantB.mobile f)); [congruence|].
  repeat split.
Qed.

Lemma separators_only_mobile_witness :
  aborted_with msg_mobile_invalid (SubmitB (Sample.formB " (-) - ")) Sample.offline
    Sample.idle.
Proof.
  refine (separators_only_mobile (Sample.formB " (-) - ") Sample.offline
            Sample.idle _ _ _ _).
  - vm_compute. discriminate.
  - vm_compute. lia.
  - vm_compute. discriminate.
  - reflexivity.
Defined.

(** X15. The remote steps of a run come in one order and none is repeated:
    identity creation, then the upsert, then the navigation, the run
    stopping after any of them or before the first. *)
Theorem steps_in_order sub be u :
  exists k, steps (effects sub be u) = firstn k [1; 2; 3].
Proof.
  exec sub u; simpl;
    first [ now exists 0 | now exists 1 | now exists 2 | now exists 3 ].
Qed.
